(** * gin-error-handler: error-to-response dispatch

    A shallow embedding of [error_handler.go] and [options.go]: the
    configuration builder, the mapping entry, the constructor and the
    middleware returned by [GetMiddleware], together with the parts of the
    Go run time the middleware calls ([errors.Is], [errors.As],
    [reflect.TypeOf], the gin context and its response writer). *)

From Stdlib Require Import List String ZArith Bool Lia PeanoNat.
Import ListNotations.
Open Scope string_scope.
Open Scope list_scope.

Set Implicit Arguments.

(** ** Go error values *)

Module GoErrors.

(** Heap addresses: [errors.New], [fmt.Errorf] and [errors.Join] return
    pointers, and [==] on them is pointer identity. *)
Definition addr := nat.

(** [validator.FieldError], reduced to the two fields that identify it. *)
Record FieldError : Type := mkFieldError { Field : string; Tag : string }.

(** The non-nil dynamic values of the interface [error] that occur in the
    package and its tests. *)
#[local] Unset Elimination Schemes.
Inductive error : Type :=
| errorString (p : addr) (s : string)                  (* errors.New: *errorString *)
| wrapError (p : addr) (msg : string) (err : error)    (* fmt.Errorf with %w: *wrapError *)
| joinError (p : addr) (errs : list error)             (* errors.Join: *joinError *)
| ValidationErrors (fields : list FieldError)          (* validator.ValidationErrors, a slice *)
| customError.                                         (* customError struct{} of the tests *)
#[local] Set Elimination Schemes.

(** An interface value of type [error]: [None] is [nil]. *)
Definition goerror := option error.

(** Induction over [error] that also reaches the members of a join. *)
Section error_rect.
Variable P : error -> Prop.
Hypothesis HString : forall p s, P (errorString p s).
Hypothesis HWrap : forall p msg e, P e -> P (wrapError p msg e).
Hypothesis HJoin : forall p es, Forall P es -> P (joinError p es).
Hypothesis HValidation : forall fs, P (ValidationErrors fs).
Hypothesis HCustom : P customError.

Fixpoint error_nested_ind (e : error) : P e :=
  match e with
  | errorString p s => HString p s
  | wrapError p msg x => HWrap p msg (error_nested_ind x)
  | joinError p es =>
      HJoin p
        ((fix all (l : list error) : Forall P l :=
            match l with
            | [] => Forall_nil P
            | x :: l' => Forall_cons x (error_nested_ind x) (all l')
            end) es)
  | ValidationErrors fs => HValidation fs
  | customError => HCustom
  end.
End error_rect.

(** Dynamic types, as [reflect.TypeOf] reports them. *)
Inductive rtype : Type :=
| T_ptr_errorString
| T_ptr_wrapError
| T_ptr_joinError
| T_ValidationErrors
| T_customError.

Definition rtype_eqb (a b : rtype) : bool :=
  match a, b with
  | T_ptr_errorString, T_ptr_errorString
  | T_ptr_wrapError, T_ptr_wrapError
  | T_ptr_joinError, T_ptr_joinError
  | T_ValidationErrors, T_ValidationErrors
  | T_customError, T_customError => true
  | _, _ => false
  end.

Definition dyn_type (e : error) : rtype :=
  match e with
  | errorString _ _ => T_ptr_errorString
  | wrapError _ _ _ => T_ptr_wrapError
  | joinError _ _ => T_ptr_joinError
  | ValidationErrors _ => T_ValidationErrors
  | customError => T_customError
  end.

(** [reflect.TypeOf]: the nil interface has the nil [Type]. *)
Definition TypeOf (e : goerror) : option rtype := option_map dyn_type e.

(** [==] on two [reflect.Type] values. *)
Definition Type_eqb (a b : option rtype) : bool :=
  match a, b with
  | Some x, Some y => rtype_eqb x y
  | None, None => true
  | _, _ => false
  end.

(** [Type.Comparable]: pointers and the empty struct are, a slice is not. *)
Definition Comparable (t : rtype) : bool :=
  match t with
  | T_ValidationErrors => false
  | _ => true
  end.

(** [err == target] on non-nil interface values: equal dynamic types and
    equal values; pointers are equal when they are the same address.
    Go panics when both sides hold a slice; [is] never gets there, since it
    compares only when the target's type is comparable. *)
Definition iface_eqb (a b : error) : bool :=
  match a, b with
  | errorString p _, errorString q _ => Nat.eqb p q
  | wrapError p _ _, wrapError q _ _ => Nat.eqb p q
  | joinError p _, joinError q _ => Nat.eqb p q
  | customError, customError => true
  | _, _ => false
  end.

(** [errors.As(err, &customError{})] for a non-nil [err]: some error of the
    chain of [err] is assignable to [customError]. *)
Fixpoint as_customError (err : error) : bool :=
  match err with
  | customError => true
  | wrapError _ _ x => as_customError x
  | joinError _ es => existsb as_customError es
  | errorString _ _ | ValidationErrors _ => false
  end.

Definition As_customError (err : goerror) : bool :=
  match err with
  | None => false
  | Some e => as_customError e
  end.

(** The method [Is(error) bool], for the one type that declares it:
    [customError.Is] answers [errors.As(target, &customError)]. *)
Definition method_Is (x : error) : option (goerror -> bool) :=
  match x with
  | customError => Some As_customError
  | _ => None
  end.

(** [errors.is]: the loop over the chain of [err]. *)
Fixpoint is_ (err : error) (target : goerror) (targetComparable : bool) : bool :=
  if targetComparable
     && match target with Some t => iface_eqb err t | None => false end
  then true
  else if match method_Is err with Some m => m target | None => false end
  then true
  else match err with
       | wrapError _ _ x => is_ x target targetComparable
       | joinError _ es => existsb (fun x => is_ x target targetComparable) es
       | _ => false
       end.

(** [errors.Is]. *)
Definition Is (err target : goerror) : bool :=
  match err, target with
  | Some e, Some t => is_ e target (Comparable (dyn_type t))
  | None, None => true
  | _, _ => false
  end.

(** The errors reachable from [e] through [Unwrap], [e] first. *)
Fixpoint chain (e : error) : list error :=
  e :: match e with
       | wrapError _ _ x => chain x
       | joinError _ es => flat_map chain es
       | _ => []
       end.

End GoErrors.

(** ** The gin context *)

Module Gin.
Import GoErrors.

(** [gin.Error]: the recorded error and its type bits. *)
Record Error : Type := mkError { Err : goerror; Type_ : N }.

(** [errorMsgs.Last]: the last recorded error, [nil] when there is none. *)
Definition Last (a : list Error) : option Error :=
  let length := List.length a in
  if Nat.ltb 0 length then nth_error a (length - 1) else None.

(** gin's [responseWriter]: [size] is [noWritten] until the header or the
    body has been written. *)
Record responseWriter : Type :=
  mkWriter { status : Z; size : Z; body : list string }.

Definition noWritten : Z := (-1)%Z.
Definition defaultStatus : Z := 200%Z.

Definition Written (w : responseWriter) : bool := negb (Z.eqb (size w) noWritten).

(** The per-request [gin.Context], as far as the middleware reads it. *)
Record Context : Type := mkContext { Errors : list Error; Writer : responseWriter }.

(** What a call produces: it returns, or it panics. *)
Inductive panic : Type :=
| nilFuncCall                    (* call of a nil func value: nil pointer dereference *)
| userPanic (msg : string).      (* a panic raised by the callee *)

Inductive Outcome (A : Type) : Type :=
| Returned (a : A)
| Panicked (p : panic).
Arguments Panicked {A} p.

(** [gin.HandlerFunc]: the context is a pointer, so a handler is a
    transformer of the state it points to. *)
Definition HandlerFunc := Context -> Outcome Context.

(** [Context.Error]: records [err]; panics on [nil]. *)
Definition Context_Error (err : goerror) (c : Context) : Outcome Context :=
  match err with
  | None => Panicked (userPanic "err is nil")
  | Some _ =>
      Returned {| Errors := Errors c ++ [ {| Err := err; Type_ := 1%N |} ];
                  Writer := Writer c |}
  end.

(** [responseWriter.WriteHeader] then [Write], as [Context.JSON] does: the
    status is kept once the response has been written. *)
Definition Context_JSON (code : Z) (obj : string) (c : Context) : Context :=
  let w := Writer c in
  let status' :=
    if (Z.ltb 0 code && negb (Z.eqb (status w) code) && negb (Written w))%bool
    then code else status w in
  let size' := if Written w then size w else 0%Z in
  {| Errors := Errors c;
     Writer := {| status := status';
                  size := (size' + Z.of_nat (String.length obj))%Z;
                  body := body w ++ [obj] |} |}.

(** [gin.CreateTestContext]. *)
Definition CreateTestContext : Context :=
  {| Errors := [];
     Writer := {| status := defaultStatus; size := noWritten; body := [] |} |}.

End Gin.

(** ** Package gin_error_handler *)

Module GinErrorHandler.
Import GoErrors Gin.

(** *** Calls made by the middleware, and their effects

    A run of the middleware is the list of producers it called, in order, and
    how it ended.  A producer is a Go func value: [None] is the nil func. *)

Inductive Event : Type :=
| CallMapped (i : nat) (c : Context) (err : goerror)   (* errMap[i].toResponseFunc(c, err) *)
| CallDefault (c : Context).                           (* defaultResponse(c) *)

Definition M (A : Type) : Type := (list Event * Outcome A)%type.

Definition ret {A} (a : A) : M A := ([], Returned a).

Definition bind {A B} (m : M A) (k : A -> M B) : M B :=
  match snd m with
  | Panicked p => (fst m, Panicked p)
  | Returned a => let m' := k a in (fst m ++ fst m', snd m')
  end.

Definition tell (ev : Event) : M unit := ([ev], Returned tt).

Definition lift {A} (o : Outcome A) : M A := ([], o).

Notation "x <- m ;; k" := (bind m (fun x => k))
  (at level 61, m at next level, right associativity).
Notation "m ;;; k" := (bind m (fun _ => k))
  (at level 61, right associativity).

Definition trace {A} (m : M A) : list Event := fst m.
Definition outcome {A} (m : M A) : Outcome A := snd m.

(** *** options.go *)

Record ErrorMapping : Type := mkErrorMapping {
  fromErrors : list goerror;
  toResponseFunc : option (Context -> goerror -> Outcome Context)
}.

Record Options : Type := mkOptions {
  errMap : list ErrorMapping;
  defaultResponse : option HandlerFunc
}.

(** The zero value [Options{}]. *)
Definition Options_zero : Options := {| errMap := []; defaultResponse := None |}.

Definition ErrorMappings (o : Options) (m : list ErrorMapping) : Options :=
  {| errMap := m; defaultResponse := defaultResponse o |}.

Definition DefaultResponse (o : Options) (f : option HandlerFunc) : Options :=
  {| errMap := errMap o; defaultResponse := f |}.

(** [errors.New] allocates: [p] is the address of the new object. *)
Definition errors_New (p : addr) (text : string) : goerror := Some (errorString p text).

Definition validate (o : Options) (p : addr) : goerror :=
  match defaultResponse o with
  | None => errors_New p "defaultResponse is required"
  | Some _ => None
  end.

(** *** error_handler.go *)

Record ErrorHandler : Type := mkErrorHandler {
  eh_errMap : list ErrorMapping;
  eh_defaultResponse : option HandlerFunc
}.

(** [NewErrorHandler] returns a pointer to the handler and an error. *)
Definition NewErrorHandler (opts : Options) (p : addr) : option ErrorHandler * goerror :=
  match validate opts p with
  | Some err => (None, Some err)
  | None =>
      (Some {| eh_errMap := errMap opts; eh_defaultResponse := defaultResponse opts |},
       None)
  end.

(** [ToResponse] has a value receiver: it answers an updated copy. *)
Definition ToResponse (r : ErrorMapping)
    (response : option (Context -> goerror -> Outcome Context)) : ErrorMapping :=
  {| fromErrors := fromErrors r; toResponseFunc := response |}.

Definition Map (err : list goerror) : ErrorMapping :=
  {| fromErrors := err; toResponseFunc := None |}.

(** The condition of the inner loop (lines 27 to 30). *)
Definition matches (lastErr_Err errToMap : goerror) : bool :=
  Is lastErr_Err errToMap
  || (Type_eqb (TypeOf errToMap) (TypeOf (Some (ValidationErrors [])))
      && Type_eqb (TypeOf lastErr_Err) (TypeOf errToMap)).

(** [errorMapping.toResponseFunc(context, lastErr.Err)] (line 31). *)
Definition call_toResponseFunc (i : nat) (errorMapping : ErrorMapping)
    (context : Context) (err : goerror) : M Context :=
  match toResponseFunc errorMapping with
  | None => lift (Panicked nilFuncCall)
  | Some f => tell (CallMapped i context err) ;;; lift (f context err)
  end.

(** [e.defaultResponse(context)] (line 37). *)
Definition call_defaultResponse (e : ErrorHandler) (context : Context) : M Context :=
  match eh_defaultResponse e with
  | None => lift (Panicked nilFuncCall)
  | Some f => tell (CallDefault context) ;;; lift (f context)
  end.

(** The inner loop over [errorMapping.fromErrors]: [Some] is the run that
    ended in [break extFor], [None] means the range was exhausted. *)
Fixpoint range_fromErrors (i : nat) (errorMapping : ErrorMapping)
    (context : Context) (lastErr_Err : goerror) (markers : list goerror)
    : option (M Context) :=
  match markers with
  | [] => None
  | errToMap :: rest =>
      if matches lastErr_Err errToMap
      then Some (call_toResponseFunc i errorMapping context lastErr_Err)
      else range_fromErrors i errorMapping context lastErr_Err rest
  end.

(** The loop labelled [extFor] over [e.errMap], from index [i] on. *)
Fixpoint extFor (i : nat) (mappings : list ErrorMapping)
    (context : Context) (lastErr_Err : goerror) : M Context :=
  match mappings with
  | [] => ret context
  | errorMapping :: rest =>
      match range_fromErrors i errorMapping context lastErr_Err
              (fromErrors errorMapping) with
      | Some run => run
      | None => extFor (S i) rest context lastErr_Err
      end
  end.

(** The middleware returned by [GetMiddleware]; [next] is the rest of the
    handler chain, which [context.Next()] runs. *)
Definition GetMiddleware (e : ErrorHandler) (next : HandlerFunc) (context : Context)
    : M Context :=
  context <- lift (next context) ;;
  match Last (Errors context) with
  | None => ret context
  | Some lastErr =>
      context <- extFor 0 (eh_errMap e) context (Err lastErr) ;;
      if negb (Written (Writer context))
      then call_defaultResponse e context
      else ret context
  end.

End GinErrorHandler.

(** ** Notions used to state the properties *)

Module Dispatch.
Import GoErrors Gin GinErrorHandler.

(** Some marker of the mapping matches the recorded error. *)
Definition mapping_matches (errorMapping : ErrorMapping) (lastErr_Err : goerror) : bool :=
  existsb (matches lastErr_Err) (fromErrors errorMapping).

(** [i] is the lowest index of a mapping that matches. *)
Definition first_match (mappings : list ErrorMapping) (lastErr_Err : goerror)
    (i : nat) (errorMapping : ErrorMapping) : Prop :=
  nth_error mappings i = Some errorMapping
  /\ mapping_matches errorMapping lastErr_Err = true
  /\ forall k em, k < i -> nth_error mappings k = Some em ->
                  mapping_matches em lastErr_Err = false.

Definition is_mapped (ev : Event) : bool :=
  match ev with CallMapped _ _ _ => true | CallDefault _ => false end.

Definition is_default (ev : Event) : bool :=
  match ev with CallMapped _ _ _ => false | CallDefault _ => true end.

(** The calls of mapped producers, and of the default producer, in a trace. *)
Definition mapped_calls (tr : list Event) : list Event := filter is_mapped tr.
Definition default_calls (tr : list Event) : list Event := filter is_default tr.

(** The mapping at index [i] has a producer, it was called on [(c1, err)],
    and it returned [c2]. *)
Definition mapped_returned (e : ErrorHandler) (i : nat) (c1 : Context)
    (err : goerror) (c2 : Context) : Prop :=
  exists em f, nth_error (eh_errMap e) i = Some em
               /\ toResponseFunc em = Some f
               /\ f c1 err = Returned c2.


(** The handler with further mappings after its own. *)
Definition append_mappings (e : ErrorHandler) (more : list ErrorMapping) : ErrorHandler :=
  {| eh_errMap := eh_errMap e ++ more; eh_defaultResponse := eh_defaultResponse e |}.


End Dispatch.

(** ** The scenarios of the package's tests *)

Module Scenarios.
Import GoErrors Gin GinErrorHandler.

Definition testErr : error := errorString 1 "test error".
Definition unmappedErr : error := errorString 2 "unmapped error".
Definition baseErr : error := errorString 3 "base error".
Definition wrappedErr : error :=
  joinError 5 [baseErr; errorString 4 "additional context"].

(** A context in which the handlers before the middleware recorded [errs],
    and an empty rest of the chain. *)
Definition recorded (errs : list error) : Context :=
  {| Errors := List.map (fun x => {| Err := Some x; Type_ := 1%N |}) errs;
     Writer := Writer CreateTestContext |}.

Definition no_handlers : HandlerFunc := fun c => Returned c.

Definition respond (code : Z) (obj : string) : Context -> goerror -> Outcome Context :=
  fun ctx _ => Returned (Context_JSON code obj ctx).

(** A producer that writes nothing, as in [TestNewErrorHandler]. *)
Definition silent : Context -> goerror -> Outcome Context :=
  fun ctx _ => Returned ctx.

Definition default_500 : HandlerFunc :=
  fun context => Returned (Context_JSON 500 "default" context).

Definition handler_of (mappings : list ErrorMapping) : ErrorHandler :=
  {| eh_errMap := mappings; eh_defaultResponse := Some default_500 |}.

Definition one_mapping : ErrorHandler :=
  handler_of [ ToResponse (Map [Some testErr]) (Some (respond 400 "mapped")) ].

Definition two_mappings : ErrorHandler :=
  handler_of [ ToResponse (Map [Some testErr]) (Some (respond 400 "first"));
               ToResponse (Map [Some testErr]) (Some (respond 409 "second")) ].

Definition base_mapping : ErrorHandler :=
  handler_of [ ToResponse (Map [Some baseErr]) (Some (respond 400 "mapped")) ].

Definition custom_mapping : ErrorHandler :=
  handler_of [ ToResponse (Map [Some customError]) (Some (respond 400 "custom error")) ].

Definition validation_mapping : ErrorHandler :=
  handler_of [ ToResponse (Map [Some (ValidationErrors [])]) (Some (respond 422 "invalid")) ].



Definition silent_mapping : ErrorHandler :=
  handler_of [ ToResponse (Map [Some testErr]) (Some silent) ].

(** A mapping built with [Map] alone: no producer was attached. *)
Definition unattached_options : Options :=
  ErrorMappings (DefaultResponse Options_zero (Some default_500)) [ Map [Some testErr] ].

Definition written_body (m : M Context) : option (Z * list string) :=
  match outcome m with
  | Returned c => Some (status (Writer c), body (Writer c))
  | Panicked _ => None
  end.

End Scenarios.

(** * Properties *)

Import GoErrors Gin GinErrorHandler Dispatch Scenarios.

(** ** The tests of the package, replayed on the embedding *)

Example recorded_by_Context_Error :
  Context_Error (Some testErr) CreateTestContext = Returned (recorded [testErr]).
Proof. reflexivity. Qed.

Example test_mapped_response :
  written_body (GetMiddleware one_mapping no_handlers (recorded [testErr]))
  = Some (400%Z, ["mapped"]).
Proof. reflexivity. Qed.

Example test_default_response :
  written_body (GetMiddleware one_mapping no_handlers (recorded [unmappedErr]))
  = Some (500%Z, ["default"]).
Proof. reflexivity. Qed.

Example test_no_error_present :
  GetMiddleware (handler_of []) no_handlers CreateTestContext
  = ([], Returned CreateTestContext)
  /\ Written (Writer CreateTestContext) = false.
Proof. split; reflexivity. Qed.

Example test_wrapped_errors :
  written_body (GetMiddleware base_mapping no_handlers (recorded [wrappedErr]))
  = Some (400%Z, ["mapped"]).
Proof. reflexivity. Qed.

Example test_first_matching_mapping :
  written_body (GetMiddleware two_mappings no_handlers (recorded [testErr]))
  = Some (400%Z, ["first"]).
Proof. reflexivity. Qed.

Example test_custom_error :
  written_body (GetMiddleware custom_mapping no_handlers (recorded [customError]))
  = Some (400%Z, ["custom error"]).
Proof. reflexivity. Qed.

(** ** Facts about [errors.Is] *)

Lemma rtype_eqb_eq (a b : rtype) : rtype_eqb a b = true <-> a = b.
Proof. destruct a, b; simpl; split; congruence. Qed.

Lemma Type_eqb_eq (a b : option rtype) : Type_eqb a b = true <-> a = b.
Proof.
  destruct a as [a|], b as [b|]; simpl; try (split; congruence).
  rewrite rtype_eqb_eq. split; congruence.
Qed.

Lemma iface_eqb_refl (e : error) :
  Comparable (dyn_type e) = true -> iface_eqb e e = true.
Proof. destruct e; simpl; intros H; try apply Nat.eqb_refl; congruence. Qed.

(** One step of [is], as an equation. *)
Lemma is_unfold (err : error) (target : goerror) (cmp : bool) :
  is_ err target cmp =
  (cmp && match target with Some t => iface_eqb err t | None => false end)
  || (match method_Is err with Some m => m target | None => false end)
  || match err with
     | wrapError _ _ x => is_ x target cmp
     | joinError _ es => existsb (fun x => is_ x target cmp) es
     | _ => false
     end.
Proof.
  destruct err; simpl;
    destruct (cmp && match target with Some t => _ | None => false end);
    simpl; try reflexivity;
    destruct (As_customError target); reflexivity.
Qed.

(** A target found in the chain of [err] by [==] is found by [is]. *)
Lemma is_complete (t : error) :
  Comparable (dyn_type t) = true ->
  forall err, In t (chain err) -> is_ err (Some t) true = true.
Proof.
  intros Hc err. induction err using error_nested_ind; intros Hin;
    rewrite is_unfold; simpl in Hin.
  - destruct Hin as [<-|[]]. now rewrite iface_eqb_refl.
  - destruct Hin as [<-|Hin]; [now rewrite iface_eqb_refl|].
    rewrite (IHerr Hin). apply orb_true_r.
  - destruct Hin as [<-|Hin]; [now rewrite iface_eqb_refl|].
    apply in_flat_map in Hin. destruct Hin as (x & Hx & Hin).
    rewrite Forall_forall in H.
    apply orb_true_iff. right. apply existsb_exists. exists x. split; auto.
  - destruct Hin as [<-|[]]. discriminate Hc.
  - destruct Hin as [<-|[]]. reflexivity.
Qed.

(** When [is] succeeds, some error of the chain is [==] to the target or
    has an [Is] method that accepts it. *)
Lemma is_sound (target : goerror) (cmp : bool) :
  forall err, is_ err target cmp = true ->
  exists x, In x (chain err)
            /\ ((cmp = true /\ exists t, target = Some t /\ iface_eqb x t = true)
                \/ exists m, method_Is x = Some m /\ m target = true).
Proof.
  induction err using error_nested_ind; rewrite is_unfold; intros Hi;
    repeat (apply orb_true_iff in Hi; destruct Hi as [Hi|Hi]);
    try discriminate Hi;
    try (apply andb_true_iff in Hi; destruct Hi as [Hcmp Hi];
         destruct target as [t|]; [|discriminate Hi];
         eexists; split; [left; reflexivity|]; left; eauto).
  - destruct (IHerr Hi) as (x & Hx & Hor). exists x. split; [right; exact Hx|exact Hor].
  - apply existsb_exists in Hi. destruct Hi as (y & Hy & Hi).
    rewrite Forall_forall in H. destruct (H y Hy Hi) as (x & Hx & Hor).
    exists x. split; [|exact Hor].
    right. apply in_flat_map. exists y. split; assumption.
  - exists customError. split; [left; reflexivity|]. right.
    exists As_customError. split; [reflexivity|exact Hi].
Qed.


(** ** The two loops *)

Lemma bind_lift_returned {A B} (a : A) (k : A -> M B) :
  bind (lift (Returned a)) k = k a.
Proof. unfold bind, lift. simpl. destruct (k a); reflexivity. Qed.

Lemma bind_ret {A B} (a : A) (k : A -> M B) : bind (ret a) k = k a.
Proof. apply bind_lift_returned. Qed.

Lemma range_fromErrors_existsb i em c err ms :
  range_fromErrors i em c err ms =
  if existsb (matches err) ms then Some (call_toResponseFunc i em c err) else None.
Proof.
  induction ms as [|m ms IH]; simpl; [reflexivity|].
  destruct (matches err m); simpl; [reflexivity|exact IH].
Qed.

(** [extFor] either exhausts the mappings or calls the producer of the
    first mapping that matches. *)
Lemma extFor_cases (mappings : list ErrorMapping) :
  forall i c err,
    ((forall em, In em mappings -> mapping_matches em err = false)
     /\ extFor i mappings c err = ret c)
    \/ (exists j em, first_match mappings err j em
                     /\ extFor i mappings c err = call_toResponseFunc (i + j) em c err).
Proof.
  induction mappings as [|em rest IH]; intros i c err; simpl.
  - left. split; [intros ? []|reflexivity].
  - rewrite range_fromErrors_existsb. fold (mapping_matches em err).
    destruct (mapping_matches em err) eqn:Hm.
    + right. exists 0, em. split.
      * split; [reflexivity|]. split; [exact Hm|]. intros k x Hk. lia.
      * now rewrite Nat.add_0_r.
    + destruct (IH (S i) c err) as [[Hall Heq]|(j & em' & (Hn & Hmm & Hlt) & Heq)].
      * left. split; [|exact Heq]. intros x [<-|Hx]; auto.
      * right. exists (S j), em'. split.
        -- split; [exact Hn|]. split; [exact Hmm|].
           intros [|k] x Hk Hx; simpl in Hx.
           ++ injection Hx as <-. exact Hm.
           ++ apply (Hlt k); [lia|exact Hx].
        -- rewrite Heq. f_equal. lia.
Qed.

Lemma first_match_unique mappings err i em j em' :
  first_match mappings err i em -> first_match mappings err j em' ->
  i = j /\ em = em'.
Proof.
  intros (Hi & Hmi & Hli) (Hj & Hmj & Hlj).
  assert (i = j) as ->.
  { destruct (Nat.lt_trichotomy i j) as [Hlt|[Heq|Hlt]]; [|exact Heq|].
    - rewrite (Hlj i em Hlt Hi) in Hmi. discriminate.
    - rewrite (Hli j em' Hlt Hj) in Hmj. discriminate. }
  split; [reflexivity|congruence].
Qed.

Lemma first_match_not_all mappings err i em :
  first_match mappings err i em ->
  (forall x, In x mappings -> mapping_matches x err = false) -> False.
Proof.
  intros (Hi & Hm & _) Hall. apply nth_error_In in Hi.
  rewrite (Hall _ Hi) in Hm. discriminate.
Qed.

(** A call of a mapped producer followed by the rest of the run. *)
Lemma bind_call_toResponseFunc i em c1 err (k : Context -> M Context) :
  bind (call_toResponseFunc i em c1 err) k =
  match toResponseFunc em with
  | None => ([], Panicked nilFuncCall)
  | Some f =>
      match f c1 err with
      | Panicked p => ([CallMapped i c1 err], Panicked p)
      | Returned c2 => (CallMapped i c1 err :: trace (k c2), outcome (k c2))
      end
  end.
Proof.
  unfold call_toResponseFunc. destruct (toResponseFunc em) as [f|]; [|reflexivity].
  unfold bind, tell, lift, trace, outcome. simpl.
  destruct (f c1 err); reflexivity.
Qed.

Lemma call_defaultResponse_eq e c1 :
  call_defaultResponse e c1 =
  match eh_defaultResponse e with
  | None => ([], Panicked nilFuncCall)
  | Some d => ([CallDefault c1], d c1)
  end.
Proof.
  unfold call_defaultResponse. destruct (eh_defaultResponse e) as [d|]; reflexivity.
Qed.

(** ** The middleware, case by case *)

Section Middleware.
Variables (e : ErrorHandler) (next : HandlerFunc) (c : Context).

Lemma GetMiddleware_next_panics p :
  next c = Panicked p -> GetMiddleware e next c = ([], Panicked p).
Proof. intros H. unfold GetMiddleware. rewrite H. reflexivity. Qed.

Lemma GetMiddleware_no_error c1 :
  next c = Returned c1 -> Last (Errors c1) = None ->
  GetMiddleware e next c = ([], Returned c1).
Proof.
  intros H HL. unfold GetMiddleware. rewrite H, bind_lift_returned, HL. reflexivity.
Qed.

Lemma GetMiddleware_no_match c1 lastErr :
  next c = Returned c1 -> Last (Errors c1) = Some lastErr ->
  (forall em, In em (eh_errMap e) -> mapping_matches em (Err lastErr) = false) ->
  GetMiddleware e next c =
  if Written (Writer c1) then ([], Returned c1) else call_defaultResponse e c1.
Proof.
  intros H HL Hall. unfold GetMiddleware. rewrite H, bind_lift_returned, HL.
  destruct (extFor_cases (eh_errMap e) 0 c1 (Err lastErr))
    as [[_ ->]|(j & em & Hf & _)].
  - rewrite bind_ret. destruct (Written (Writer c1)); reflexivity.
  - destruct (first_match_not_all Hf Hall).
Qed.

Lemma GetMiddleware_match c1 lastErr i em :
  next c = Returned c1 -> Last (Errors c1) = Some lastErr ->
  first_match (eh_errMap e) (Err lastErr) i em ->
  GetMiddleware e next c =
  (c2 <- call_toResponseFunc i em c1 (Err lastErr) ;;
   if negb (Written (Writer c2)) then call_defaultResponse e c2 else ret c2).
Proof.
  intros H HL Hf. unfold GetMiddleware. rewrite H, bind_lift_returned, HL.
  destruct (extFor_cases (eh_errMap e) 0 c1 (Err lastErr))
    as [[Hall _]|(j & em' & Hf' & ->)].
  - destruct (first_match_not_all Hf Hall).
  - destruct (first_match_unique Hf' Hf) as [-> ->]. reflexivity.
Qed.

(** The calls of one run: none, the default alone, a mapped producer
    alone, or a mapped producer that returned without a written response
    followed by the default. *)
Lemma GetMiddleware_trace :
  let tr := trace (GetMiddleware e next c) in
  tr = []
  \/ (exists c1, tr = [CallDefault c1])
  \/ (exists i c1 err, tr = [CallMapped i c1 err])
  \/ (exists i c1 err c2,
        tr = [CallMapped i c1 err; CallDefault c2]
        /\ mapped_returned e i c1 err c2
        /\ Written (Writer c2) = false).
Proof.
  simpl. destruct (next c) as [c1|p] eqn:Hn.
  2:{ left. now rewrite (GetMiddleware_next_panics Hn). }
  destruct (Last (Errors c1)) as [lastErr|] eqn:HL.
  2:{ left. now rewrite (GetMiddleware_no_error Hn HL). }
  destruct (extFor_cases (eh_errMap e) 0 c1 (Err lastErr))
    as [[Hall _]|(j & em & Hf & _)].
  - rewrite (GetMiddleware_no_match Hn HL Hall).
    destruct (Written (Writer c1)); [left; reflexivity|].
    rewrite call_defaultResponse_eq. destruct (eh_defaultResponse e) as [d|];
      [right; left; exists c1; reflexivity|left; reflexivity].
  - rewrite (GetMiddleware_match Hn HL Hf), bind_call_toResponseFunc.
    destruct (toResponseFunc em) as [f|] eqn:Hp; [|left; reflexivity].
    destruct (f c1 (Err lastErr)) as [c2|p] eqn:Hr.
    2:{ right; right; left. exists j, c1, (Err lastErr). reflexivity. }
    destruct (Written (Writer c2)) eqn:Hw; simpl.
    + right; right; left. exists j, c1, (Err lastErr). reflexivity.
    + rewrite call_defaultResponse_eq. destruct (eh_defaultResponse e) as [d|].
      * right; right; right. exists j, c1, (Err lastErr), c2.
        split; [reflexivity|split; [|exact Hw]].
        exists em, f. destruct Hf as (Hnth & _). auto.
      * right; right; left. exists j, c1, (Err lastErr). reflexivity.
Qed.

End Middleware.

(** ** Invocations per request *)

Ltac trace_cases e next c :=
  let H := fresh "Htr" in
  pose proof (GetMiddleware_trace e next c) as H; simpl in H;
  destruct H as [H|[(?c1 & H)|[(?i & ?c1 & ?err & H)
                              |(?i & ?c1 & ?err & ?c2 & H & ?Hret & ?Hw)]]];
  rewrite H in *; clear H.

(** C1, as stated, fails: a mapped producer that returns without writing a
    response is followed by the default producer on the same request. *)
Lemma C1_mapped_then_default :
  trace (GetMiddleware silent_mapping no_handlers (recorded [testErr]))
  = [ CallMapped 0 (recorded [testErr]) (Some testErr);
      CallDefault (recorded [testErr]) ].
Proof. reflexivity. Qed.

(** C1, amended: per request at most one mapped producer and at most once
    the default producer are invoked; both are invoked only when the mapped
    producer returned and no response was written by then, so a mapped
    producer that leaves a response written excludes the default. *)
Theorem C1_invocations_per_request (e : ErrorHandler) (next : HandlerFunc) (c : Context) :
  let tr := trace (GetMiddleware e next c) in
  List.length (mapped_calls tr) <= 1
  /\ List.length (default_calls tr) <= 1
  /\ (forall i c1 err c2,
        In (CallMapped i c1 err) tr -> In (CallDefault c2) tr ->
        mapped_returned e i c1 err c2 /\ Written (Writer c2) = false)
  /\ (forall i c1 err c2,
        In (CallMapped i c1 err) tr -> mapped_returned e i c1 err c2 ->
        Written (Writer c2) = true -> default_calls tr = []).
Proof.
  simpl. trace_cases e next c; simpl; (split; [lia|split; [lia|split]]).
  - intros ? ? ? ? [].
  - intros ? ? ? ? [].
  - intros ? ? ? ? [Hm|[]]. discriminate Hm.
  - intros ? ? ? ? [Hm|[]]. discriminate Hm.
  - intros ? ? ? ? _ [Hd|[]]. discriminate Hd.
  - reflexivity.
  - intros j c1' err' c2' [Hm|[Hm|[]]] [Hd|[Hd|[]]];
      try discriminate Hm; try discriminate Hd.
    injection Hm as <- <- <-. injection Hd as <-. split; assumption.
  - intros j c1' err' c2' [Hm|[Hm|[]]] (em & f & Hn & Hf & Hr) Hwr;
      [|discriminate Hm].
    injection Hm as <- <- <-.
    destruct Hret as (em' & f' & Hn' & Hf' & Hr').
    assert (c2' = c2) as -> by congruence. congruence.
Qed.

Lemma C1_invocations_per_request_witness :
  default_calls (trace (GetMiddleware one_mapping no_handlers (recorded [testErr]))) = [].
Proof.
  pose proof (@C1_invocations_per_request one_mapping no_handlers (recorded [testErr]))
    as (_ & _ & _ & H).
  apply (H 0 (recorded [testErr]) (Some testErr)
           (Context_JSON 400 "mapped" (recorded [testErr]))).
  - left. reflexivity.
  - exists (ToResponse (Map [Some testErr]) (Some (respond 400 "mapped"))),
           (respond 400 "mapped").
    repeat split; reflexivity.
  - reflexivity.
Defined.

(** ** No recorded error *)

(** C2, as stated, fails: with no recorded error and nothing written, the
    run ends without a call of the default producer. *)
Lemma C2_no_error_default_skipped :
  Last (Errors CreateTestContext) = None
  /\ Written (Writer CreateTestContext) = false
  /\ default_calls (trace (GetMiddleware (handler_of []) no_handlers CreateTestContext)) = [].
Proof. repeat split. Qed.

(** C2, amended: when the downstream step records no error, the default
    producer is not invoked, whether or not a response has been written. *)
Theorem C2_no_error_no_default (e : ErrorHandler) (next : HandlerFunc) (c c1 : Context) :
  next c = Returned c1 ->
  Last (Errors c1) = None ->
  default_calls (trace (GetMiddleware e next c)) = [].
Proof. intros Hn HL. rewrite (GetMiddleware_no_error e next c Hn HL). reflexivity. Qed.

Lemma C2_no_error_no_default_witness :
  default_calls (trace (GetMiddleware one_mapping no_handlers CreateTestContext)) = [].
Proof.
  apply (@C2_no_error_no_default one_mapping no_handlers CreateTestContext
            CreateTestContext); reflexivity.
Defined.

(** C3: when the downstream step records no error, no producer is invoked,
    and the run returns the context as the downstream step left it. *)
Theorem C3_no_error_no_producer (e : ErrorHandler) (next : HandlerFunc) (c c1 : Context) :
  next c = Returned c1 ->
  Last (Errors c1) = None ->
  trace (GetMiddleware e next c) = []
  /\ outcome (GetMiddleware e next c) = Returned c1.
Proof. intros Hn HL. rewrite (GetMiddleware_no_error e next c Hn HL). split; reflexivity. Qed.

Lemma C3_no_error_no_producer_witness :
  trace (GetMiddleware two_mappings no_handlers CreateTestContext) = []
  /\ outcome (GetMiddleware two_mappings no_handlers CreateTestContext)
     = Returned CreateTestContext.
Proof.
  apply (@C3_no_error_no_producer two_mappings no_handlers CreateTestContext
            CreateTestContext); reflexivity.
Defined.

(** ** First match wins *)

(** The calls after a mapped producer returned: the default, or none. *)
Lemma after_mapped_trace (e : ErrorHandler) (c2 : Context) :
  mapped_calls
    (trace (if negb (Written (Writer c2)) then call_defaultResponse e c2 else ret c2)) = []
  /\ forall k c' err',
       ~ In (CallMapped k c' err')
           (trace (if negb (Written (Writer c2)) then call_defaultResponse e c2 else ret c2)).
Proof.
  destruct (Written (Writer c2)); simpl.
  - split; [reflexivity|intros ? ? ? []].
  - rewrite call_defaultResponse_eq. destruct (eh_defaultResponse e); simpl.
    + split; [reflexivity|]. intros ? ? ? [H|[]]. discriminate H.
    + split; [reflexivity|intros ? ? ? []].
Qed.

(** C4: when two or more mappings match the recorded error, the only
    mapped producer that is invoked is the one of the first such mapping;
    it receives the context left by the downstream step and the recorded
    error itself, and the producer of a later matching mapping is not
    invoked. *)
Theorem C4_first_match_wins (e : ErrorHandler) (next : HandlerFunc) (c c1 : Context)
    (lastErr : Error) (i j : nat) (emi emj : ErrorMapping) :
  next c = Returned c1 ->
  Last (Errors c1) = Some lastErr ->
  first_match (eh_errMap e) (Err lastErr) i emi ->
  i < j ->
  nth_error (eh_errMap e) j = Some emj ->
  mapping_matches emj (Err lastErr) = true ->
  let tr := trace (GetMiddleware e next c) in
  (forall k c' err', In (CallMapped k c' err') tr ->
                     k = i /\ c' = c1 /\ err' = Err lastErr)
  /\ (forall c' err', ~ In (CallMapped j c' err') tr)
  /\ (forall f, toResponseFunc emi = Some f ->
                mapped_calls tr = [CallMapped i c1 (Err lastErr)]).
Proof.
  intros Hn HL Hf Hij Hj Hmj. simpl.
  rewrite (GetMiddleware_match e next c Hn HL Hf), bind_call_toResponseFunc.
  assert (Honly : forall k c' err',
             In (CallMapped k c' err')
                (trace (match toResponseFunc emi with
                        | None => ([], Panicked nilFuncCall)
                        | Some f =>
                            match f c1 (Err lastErr) with
                            | Panicked p => ([CallMapped i c1 (Err lastErr)], Panicked p)
                            | Returned c2 =>
                                (CallMapped i c1 (Err lastErr)
                                   :: trace (if negb (Written (Writer c2))
                                             then call_defaultResponse e c2 else ret c2),
                                 outcome (if negb (Written (Writer c2))
                                          then call_defaultResponse e c2 else ret c2))
                            end
                        end)) ->
             k = i /\ c' = c1 /\ err' = Err lastErr).
  { intros k c' err'. destruct (toResponseFunc emi) as [f|]; [|intros []].
    destruct (f c1 (Err lastErr)) as [c2|p]; unfold trace at 1; simpl.
    - intros [H|H]; [injection H as <- <- <-; auto|].
      destruct (proj2 (after_mapped_trace e c2) _ _ _ H).
    - intros [H|[]]. injection H as <- <- <-; auto. }
  split; [exact Honly|]. split.
  - intros c' err' H. apply Honly in H. lia.
  - intros f ->. destruct (f c1 (Err lastErr)) as [c2|p]; [|reflexivity].
    unfold trace at 1, mapped_calls; simpl. f_equal.
    apply (proj1 (after_mapped_trace e c2)).
Qed.

Lemma C4_first_match_wins_witness :
  mapped_calls (trace (GetMiddleware two_mappings no_handlers (recorded [testErr])))
  = [CallMapped 0 (recorded [testErr]) (Some testErr)].
Proof.
  pose proof (@C4_first_match_wins two_mappings no_handlers (recorded [testErr])
                (recorded [testErr])
                {| Err := Some testErr; Type_ := 1%N |}
                0 1
                (ToResponse (Map [Some testErr]) (Some (respond 400 "first")))
                (ToResponse (Map [Some testErr]) (Some (respond 409 "second"))))
    as H.
  refine (proj2 (proj2 (H eq_refl eq_refl _ _ eq_refl eq_refl)) _ eq_refl).
  - split; [reflexivity|]. split; [reflexivity|]. intros k em Hk. lia.
  - lia.
Defined.

(** ** The default producer *)

(** C8: a recorded error that no mapping matches (as with an empty mapping
    list) leads to exactly one call of the default producer when no
    response has been written by then, and to no call at all when one has. *)
Theorem C8_default_on_no_match (e : ErrorHandler) (d : HandlerFunc)
    (next : HandlerFunc) (c c1 : Context) (lastErr : Error) :
  eh_defaultResponse e = Some d ->
  next c = Returned c1 ->
  Last (Errors c1) = Some lastErr ->
  (forall em, In em (eh_errMap e) -> mapping_matches em (Err lastErr) = false) ->
  GetMiddleware e next c =
  if Written (Writer c1) then ([], Returned c1) else ([CallDefault c1], d c1).
Proof.
  intros Hd Hn HL Hall. rewrite (GetMiddleware_no_match e next c Hn HL Hall).
  rewrite call_defaultResponse_eq, Hd. reflexivity.
Qed.

Lemma C8_default_on_no_match_witness :
  GetMiddleware (handler_of []) no_handlers (recorded [testErr])
  = ([CallDefault (recorded [testErr])], default_500 (recorded [testErr])).
Proof.
  apply (@C8_default_on_no_match (handler_of []) default_500 no_handlers
            (recorded [testErr]) (recorded [testErr])
            {| Err := Some testErr; Type_ := 1%N |});
    try reflexivity.
  intros em [].
Defined.

(** ** The match rule *)

Lemma matches_marker_in_chain (r marker : error) :
  In marker (chain r) -> Comparable (dyn_type marker) = true ->
  matches (Some r) (Some marker) = true.
Proof.
  intros Hin Hc. unfold matches. simpl. rewrite Hc.
  rewrite (@is_complete marker Hc r Hin). reflexivity.
Qed.





(** C10: a marker that wraps or joins [e] is not matched by a recorded [e]
    (no error of the chain of [e] is the marker, and none has an [Is]
    method), although the recorded marker would match [e]: only the chain
    of the recorded error is walked. *)
Theorem C10_match_not_symmetric (e m : error) :
  In e (chain m) ->
  dyn_type m = T_ptr_wrapError \/ dyn_type m = T_ptr_joinError ->
  (forall x, In x (chain e) -> iface_eqb x m = false) ->
  (forall x, In x (chain e) -> method_Is x = None) ->
  matches (Some e) (Some m) = false
  /\ (Comparable (dyn_type e) = true -> matches (Some m) (Some e) = true).
Proof.
  intros Hin Hty Hneq Hnone. split.
  - unfold matches. simpl.
    assert (Hfb : rtype_eqb (dyn_type m) T_ValidationErrors = false)
      by (destruct Hty as [-> | ->]; reflexivity).
    rewrite Hfb, orb_false_r.
    destruct (is_ e (Some m) (Comparable (dyn_type m))) eqn:Hi; [|reflexivity].
    apply is_sound in Hi.
    destruct Hi as (x & Hx & [(_ & t & Ht & Heq)|(f & Hf & _)]).
    + injection Ht as <-. rewrite (Hneq x Hx) in Heq. discriminate.
    + rewrite (Hnone x Hx) in Hf. discriminate.
  - intros Hc. now apply matches_marker_in_chain.
Qed.

Lemma C10_match_not_symmetric_witness :
  matches (Some baseErr) (Some wrappedErr) = false
  /\ (Comparable (dyn_type baseErr) = true ->
      matches (Some wrappedErr) (Some baseErr) = true).
Proof.
  apply (@C10_match_not_symmetric baseErr wrappedErr).
  - right. left. reflexivity.
  - right. reflexivity.
  - intros x [<-|[]]. reflexivity.
  - intros x [<-|[]]. reflexivity.
Defined.

(** ** Construction *)

(** C7: construction fails exactly when the default producer is unset, and
    then yields no handler; with a default producer set, whatever the
    mapping list, it yields the handler holding the configured mappings and
    default producer, and no error. *)
Theorem C7_construction (opts : Options) (p : addr) :
  (defaultResponse opts = None
   <-> fst (NewErrorHandler opts p) = None
       /\ snd (NewErrorHandler opts p)
          = Some (errorString p "defaultResponse is required"))
  /\ (snd (NewErrorHandler opts p) <> None <-> defaultResponse opts = None)
  /\ (forall d, defaultResponse opts = Some d ->
                NewErrorHandler opts p
                = (Some {| eh_errMap := errMap opts; eh_defaultResponse := Some d |},
                   None)).
Proof.
  unfold NewErrorHandler, validate, errors_New.
  destruct (defaultResponse opts) as [d|]; simpl.
  - split; [|split].
    + split; [discriminate|]. intros [H _]. discriminate H.
    + split; [intros H; now destruct H|discriminate].
    + intros d' [= <-]. reflexivity.
  - split; [|split].
    + split; auto.
    + split; [reflexivity|discriminate].
    + discriminate.
Qed.

Lemma C7_construction_witness :
  NewErrorHandler (DefaultResponse Options_zero (Some default_500)) 0
  = (Some {| eh_errMap := []; eh_defaultResponse := Some default_500 |}, None).
Proof.
  apply (proj2 (proj2 (C7_construction
                         (DefaultResponse Options_zero (Some default_500)) 0))
           default_500).
  reflexivity.
Defined.

(** ** A mapping without a producer *)

(** C9, evaluated where it fails: the constructor accepts a mapping that
    [Map] built and to which no producer was attached, and a request whose
    error matches it ends in the panic of a nil func call, no producer
    having been invoked. *)
Theorem C9_unattached_producer_panics :
  exists e, NewErrorHandler unattached_options 7 = (Some e, None)
            /\ GetMiddleware e no_handlers (recorded [testErr])
               = ([], Panicked nilFuncCall).
Proof. eexists. split; reflexivity. Qed.


(** * Further properties of the dispatch *)

Lemma Last_app (es : list Error) (x : Error) : Last (es ++ [x]) = Some x.
Proof.
  unfold Last. rewrite length_app. simpl.
  replace (List.length es + 1 - 1) with (List.length es) by lia.
  destruct (Nat.ltb_spec 0 (List.length es + 1)) as [_|H]; [|lia].
  rewrite nth_error_app2 by lia. now rewrite Nat.sub_diag.
Qed.

(** X1: when the recorded error has a first matching mapping and that
    mapping has a producer, the run is the call of that producer, whether
    or not a response was written before; a panic of the producer ends the
    run, a written response ends it too, and otherwise the default producer
    is called on the context the producer returned. *)
Theorem matched_run (e : ErrorHandler) (d : HandlerFunc) (next : HandlerFunc)
    (c c1 : Context) (lastErr : Error) (i : nat) (em : ErrorMapping)
    (f : Context -> goerror -> Outcome Context) :
  eh_defaultResponse e = Some d ->
  next c = Returned c1 ->
  Last (Errors c1) = Some lastErr ->
  first_match (eh_errMap e) (Err lastErr) i em ->
  toResponseFunc em = Some f ->
  GetMiddleware e next c =
  match f c1 (Err lastErr) with
  | Panicked p => ([CallMapped i c1 (Err lastErr)], Panicked p)
  | Returned c2 =>
      if Written (Writer c2)
      then ([CallMapped i c1 (Err lastErr)], Returned c2)
      else ([CallMapped i c1 (Err lastErr); CallDefault c2], d c2)
  end.
Proof.
  intros Hd Hn HL Hf Hp.
  rewrite (GetMiddleware_match e next c Hn HL Hf), bind_call_toResponseFunc, Hp.
  destruct (f c1 (Err lastErr)) as [c2|q]; [|reflexivity].
  destruct (Written (Writer c2)); simpl; [reflexivity|].
  rewrite call_defaultResponse_eq, Hd. reflexivity.
Qed.

Lemma matched_run_witness :
  GetMiddleware two_mappings no_handlers (recorded [testErr])
  = ([CallMapped 0 (recorded [testErr]) (Some testErr)],
     Returned (Context_JSON 400 "first" (recorded [testErr]))).
Proof.
  apply (@matched_run two_mappings default_500 no_handlers (recorded [testErr])
           (recorded [testErr]) {| Err := Some testErr; Type_ := 1%N |} 0
           (ToResponse (Map [Some testErr]) (Some (respond 400 "first")))
           (respond 400 "first")); try reflexivity.
  split; [reflexivity|]. split; [reflexivity|]. intros k em Hk. lia.
Defined.

(** X2: only the error recorded last counts: every call of a mapped
    producer carries the last recorded error and the context left by the
    downstream step, and it is the call of the first mapping that matches
    that error, whatever was recorded before it. *)
Theorem only_last_error (e : ErrorHandler) (next : HandlerFunc) (c c1 : Context)
    (es : list Error) (x : Error) :
  next c = Returned c1 ->
  Errors c1 = es ++ [x] ->
  forall k c' err',
    In (CallMapped k c' err') (trace (GetMiddleware e next c)) ->
    err' = Err x /\ c' = c1 /\ exists em, first_match (eh_errMap e) (Err x) k em.
Proof.
  intros Hn He k c' err'.
  assert (HL : Last (Errors c1) = Some x) by (rewrite He; apply Last_app).
  destruct (extFor_cases (eh_errMap e) 0 c1 (Err x)) as [[Hno _]|(j & em & Hf & _)].
  - rewrite (GetMiddleware_no_match e next c Hn HL Hno), call_defaultResponse_eq.
    destruct (Written (Writer c1)); [intros []|].
    destruct (eh_defaultResponse e); [intros [H|[]]; discriminate H|intros []].
  - rewrite (GetMiddleware_match e next c Hn HL Hf), bind_call_toResponseFunc.
    destruct (toResponseFunc em) as [f|]; [|intros []].
    destruct (f c1 (Err x)) as [c2|q]; unfold trace at 1; simpl.
    + intros [H|H].
      * injection H as <- <- <-. split; [reflexivity|]. split; [reflexivity|]. now exists em.
      * destruct (proj2 (after_mapped_trace e c2) _ _ _ H).
    + intros [H|[]]. injection H as <- <- <-.
      split; [reflexivity|]. split; [reflexivity|]. now exists em.
Qed.

Lemma only_last_error_witness :
  Some testErr = Some testErr
  /\ recorded [unmappedErr; testErr] = recorded [unmappedErr; testErr]
  /\ exists em, first_match (eh_errMap one_mapping) (Some testErr) 0 em.
Proof.
  apply (@only_last_error one_mapping no_handlers (recorded [unmappedErr; testErr])
           (recorded [unmappedErr; testErr])
           [ {| Err := Some unmappedErr; Type_ := 1%N |} ]
           {| Err := Some testErr; Type_ := 1%N |} eq_refl eq_refl
           0 (recorded [unmappedErr; testErr]) (Some testErr)).
  left. reflexivity.
Defined.

(** X3: when an error was recorded, the default producer leaves a
    response written whenever it is called on a context without one and
    returns, and the run returns, the context it returns has a response
    written. *)
Theorem response_written_after_error (e : ErrorHandler) (next : HandlerFunc)
    (c c1 c' : Context) (lastErr : Error) :
  (forall d x x', eh_defaultResponse e = Some d ->
                  Written (Writer x) = false -> d x = Returned x' ->
                  Written (Writer x') = true) ->
  next c = Returned c1 ->
  Last (Errors c1) = Some lastErr ->
  outcome (GetMiddleware e next c) = Returned c' ->
  Written (Writer c') = true.
Proof.
  intros Hd Hn HL.
  destruct (extFor_cases (eh_errMap e) 0 c1 (Err lastErr))
    as [[Hno _]|(j & em & Hf & _)].
  - rewrite (GetMiddleware_no_match e next c Hn HL Hno), call_defaultResponse_eq.
    destruct (Written (Writer c1)) eqn:Hw; [intros [= <-]; exact Hw|].
    destruct (eh_defaultResponse e) as [d|] eqn:Ed; [|discriminate].
    unfold outcome. simpl. intros Hr. exact (Hd d c1 c' eq_refl Hw Hr).
  - rewrite (GetMiddleware_match e next c Hn HL Hf), bind_call_toResponseFunc.
    destruct (toResponseFunc em) as [f|]; [|discriminate].
    destruct (f c1 (Err lastErr)) as [c2|q]; [|discriminate].
    unfold outcome at 1. simpl.
    destruct (Written (Writer c2)) eqn:Hw; simpl; [intros [= <-]; exact Hw|].
    rewrite call_defaultResponse_eq.
    destruct (eh_defaultResponse e) as [d|] eqn:Ed; [|discriminate].
    unfold outcome. simpl. intros Hr. exact (Hd d c2 c' eq_refl Hw Hr).
Qed.

Lemma response_written_after_error_witness :
  Written (Writer (Context_JSON 500 "default" (recorded [testErr]))) = true.
Proof.
  apply (@response_written_after_error silent_mapping no_handlers (recorded [testErr])
           (recorded [testErr]) (Context_JSON 500 "default" (recorded [testErr]))
           {| Err := Some testErr; Type_ := 1%N |}); try reflexivity.
  intros d x x' [= <-] Hw [= <-]. unfold Context_JSON. rewrite Hw. reflexivity.
Defined.

(** X4: the middleware changes the context only through the producers it
    calls: a property of the context that holds after the downstream step
    and that every producer of the handler keeps holds of the context the
    run returns. *)
Theorem context_invariant_kept (P : Context -> Prop) (e : ErrorHandler)
    (next : HandlerFunc) (c c1 c' : Context) :
  (forall em f x err x', In em (eh_errMap e) -> toResponseFunc em = Some f ->
                         P x -> f x err = Returned x' -> P x') ->
  (forall d x x', eh_defaultResponse e = Some d -> P x -> d x = Returned x' -> P x') ->
  next c = Returned c1 ->
  P c1 ->
  outcome (GetMiddleware e next c) = Returned c' ->
  P c'.
Proof.
  intros Hmap Hdef Hn HP.
  destruct (Last (Errors c1)) as [lastErr|] eqn:HL.
  2:{ rewrite (GetMiddleware_no_error e next c Hn HL). now intros [= <-]. }
  destruct (extFor_cases (eh_errMap e) 0 c1 (Err lastErr))
    as [[Hno _]|(j & em & Hf & _)].
  - rewrite (GetMiddleware_no_match e next c Hn HL Hno), call_defaultResponse_eq.
    destruct (Written (Writer c1)); [now intros [= <-]|].
    destruct (eh_defaultResponse e) as [d|] eqn:Ed; [|discriminate].
    unfold outcome. simpl. intros Hr. exact (Hdef d c1 c' eq_refl HP Hr).
  - rewrite (GetMiddleware_match e next c Hn HL Hf), bind_call_toResponseFunc.
    pose proof Hf as (Hnth & _). apply nth_error_In in Hnth.
    destruct (toResponseFunc em) as [f|] eqn:Ef; [|discriminate].
    destruct (f c1 (Err lastErr)) as [c2|q] eqn:Hr; [|discriminate].
    pose proof (Hmap em f c1 (Err lastErr) c2 Hnth Ef HP Hr) as HP2.
    unfold outcome at 1. simpl.
    destruct (Written (Writer c2)); simpl; [now intros [= <-]|].
    rewrite call_defaultResponse_eq.
    destruct (eh_defaultResponse e) as [d|] eqn:Ed; [|discriminate].
    unfold outcome. simpl. intros Hr'. exact (Hdef d c2 c' eq_refl HP2 Hr').
Qed.

Lemma context_invariant_kept_witness :
  Errors (Context_JSON 400 "mapped" (recorded [testErr]))
  = Errors (recorded [testErr]).
Proof.
  apply (@context_invariant_kept
           (fun x => Errors x = Errors (recorded [testErr]))
           one_mapping no_handlers (recorded [testErr]) (recorded [testErr])
           (Context_JSON 400 "mapped" (recorded [testErr])));
    try reflexivity.
  - intros em f x err x' [<-|[]] [= <-] HP [= <-]. exact HP.
  - intros d x x' [= <-] HP [= <-]. exact HP.
Defined.



(** X6: a handler without a default producer, such as the zero value of
    [ErrorHandler], panics on the nil func call when the recorded error
    matches no mapping and no response has been written. *)
Theorem nil_default_panics (e : ErrorHandler) (next : HandlerFunc) (c c1 : Context)
    (lastErr : Error) :
  eh_defaultResponse e = None ->
  next c = Returned c1 ->
  Last (Errors c1) = Some lastErr ->
  (forall em, In em (eh_errMap e) -> mapping_matches em (Err lastErr) = false) ->
  Written (Writer c1) = false ->
  GetMiddleware e next c = ([], Panicked nilFuncCall).
Proof.
  intros Hd Hn HL Hno Hw.
  rewrite (GetMiddleware_no_match e next c Hn HL Hno), Hw, call_defaultResponse_eq, Hd.
  reflexivity.
Qed.

Lemma nil_default_panics_witness :
  GetMiddleware {| eh_errMap := []; eh_defaultResponse := None |} no_handlers
    (recorded [testErr])
  = ([], Panicked nilFuncCall).
Proof.
  apply (@nil_default_panics {| eh_errMap := []; eh_defaultResponse := None |}
           no_handlers (recorded [testErr]) (recorded [testErr])
           {| Err := Some testErr; Type_ := 1%N |}); try reflexivity.
  intros em [].
Defined.

(** ** The mapping list *)

(** The loop over a concatenation: the second list is reached, with
    shifted indices, only when no mapping of the first matches. *)
Lemma extFor_app (l1 l2 : list ErrorMapping) :
  forall i c err,
    extFor i (l1 ++ l2) c err =
    if existsb (fun em => mapping_matches em err) l1
    then extFor i l1 c err
    else extFor (i + List.length l1) l2 c err.
Proof.
  induction l1 as [|em l1 IH]; intros i c err; simpl.
  - now rewrite Nat.add_0_r.
  - rewrite range_fromErrors_existsb. fold (mapping_matches em err).
    destruct (mapping_matches em err); simpl; [reflexivity|].
    rewrite IH. now replace (S i + List.length l1) with (i + S (List.length l1)) by lia.
Qed.

Lemma first_match_existsb mappings err i em :
  first_match mappings err i em ->
  existsb (fun x => mapping_matches x err) mappings = true.
Proof.
  intros (Hnth & Hm & _). apply existsb_exists. exists em.
  split; [exact (nth_error_In _ _ Hnth)|exact Hm].
Qed.

(** X7: mappings added after those of a handler do not change the run of
    a request whose recorded error one of the handler's mappings matches. *)
Theorem appended_mappings_ignored (e : ErrorHandler) (more : list ErrorMapping)
    (next : HandlerFunc) (c c1 : Context) (lastErr : Error) (i : nat)
    (em : ErrorMapping) :
  next c = Returned c1 ->
  Last (Errors c1) = Some lastErr ->
  first_match (eh_errMap e) (Err lastErr) i em ->
  GetMiddleware (append_mappings e more) next c = GetMiddleware e next c.
Proof.
  intros Hn HL Hf. unfold GetMiddleware. rewrite Hn, !bind_lift_returned, HL.
  simpl. rewrite extFor_app, (first_match_existsb Hf). reflexivity.
Qed.

Lemma appended_mappings_ignored_witness :
  GetMiddleware (append_mappings one_mapping (eh_errMap two_mappings)) no_handlers
    (recorded [testErr])
  = GetMiddleware one_mapping no_handlers (recorded [testErr]).
Proof.
  apply (@appended_mappings_ignored one_mapping (eh_errMap two_mappings) no_handlers
           (recorded [testErr]) (recorded [testErr])
           {| Err := Some testErr; Type_ := 1%N |} 0
           (ToResponse (Map [Some testErr]) (Some (respond 400 "mapped"))));
    try reflexivity.
  split; [reflexivity|]. split; [reflexivity|]. intros k em Hk. lia.
Defined.





(** ** The match rule, continued *)

(** The converse of [is_sound]. *)
Lemma is_found (target : goerror) (cmp : bool) :
  forall err x,
    In x (chain err) ->
    (cmp = true /\ exists t, target = Some t /\ iface_eqb x t = true)
    \/ (exists m, method_Is x = Some m /\ m target = true) ->
    is_ err target cmp = true.
Proof.
  assert (Hhead : forall x,
             (cmp = true /\ exists t, target = Some t /\ iface_eqb x t = true)
             \/ (exists m, method_Is x = Some m /\ m target = true) ->
             (cmp && match target with Some t => iface_eqb x t | None => false end)
             || match method_Is x with Some m => m target | None => false end = true).
  { intros x [(-> & t & -> & Heq)|(m & -> & Hm)].
    - simpl. now rewrite Heq.
    - rewrite Hm. apply orb_true_r. }
  induction err using error_nested_ind; intros x Hin Hx; rewrite is_unfold;
    simpl in Hin.
  - destruct Hin as [<-|[]]. now rewrite (Hhead _ Hx).
  - destruct Hin as [<-|Hin]; [now rewrite (Hhead _ Hx)|].
    rewrite (IHerr x Hin Hx). apply orb_true_r.
  - destruct Hin as [<-|Hin]; [now rewrite (Hhead _ Hx)|].
    apply in_flat_map in Hin. destruct Hin as (y & Hy & Hin).
    rewrite Forall_forall in H.
    apply orb_true_iff. right. apply existsb_exists. exists y.
    split; [exact Hy|exact (H y Hy x Hin Hx)].
  - destruct Hin as [<-|[]]. now rewrite (Hhead _ Hx).
  - destruct Hin as [<-|[]]. now rewrite (Hhead _ Hx).
Qed.



(** X11: a nil marker matches a nil recorded error and no other, and a nil
    recorded error matches a nil marker and no other. *)
Theorem matches_nil (r m : goerror) :
  matches r None = match r with None => true | Some _ => false end
  /\ matches None m = match m with None => true | Some _ => false end.
Proof. split; [destruct r|destruct m as [[]|]]; reflexivity. Qed.

(** X12: a recorded [customError] matches a marker exactly when the chain
    of the marker holds a [customError], as its method [Is] decides. *)
Theorem customError_matches (t : error) :
  matches (Some customError) (Some t) = as_customError t.
Proof.
  destruct t as [p s|p msg x|p es|fs|]; unfold matches; simpl; try reflexivity.
  - destruct (as_customError x); reflexivity.
  - destruct (existsb as_customError es); reflexivity.
Qed.

(** X13: wrapping keeps a match: when the recorded error matches a marker
    of a comparable type, so does every error that wraps it and every join
    that holds it. *)
Theorem wrapping_keeps_match (r m : error) :
  matches (Some r) (Some m) = true ->
  Comparable (dyn_type m) = true ->
  (forall p msg, matches (Some (wrapError p msg r)) (Some m) = true)
  /\ (forall p es, In r es -> matches (Some (joinError p es)) (Some m) = true).
Proof.
  intros Hm Hc.
  assert (Hi : is_ r (Some m) true = true).
  { unfold matches in Hm. simpl in Hm. rewrite Hc in Hm.
    apply orb_true_iff in Hm. destruct Hm as [Hm|Hm]; [exact Hm|].
    apply andb_true_iff in Hm. destruct Hm as [Hm _].
    apply rtype_eqb_eq in Hm. rewrite Hm in Hc. discriminate Hc. }
  apply is_sound in Hi. destruct Hi as (x & Hx & Hor).
  split.
  - intros p msg. unfold matches, Is. rewrite Hc. apply orb_true_iff. left.
    apply (@is_found (Some m) true (wrapError p msg r) x); [|exact Hor].
    right. exact Hx.
  - intros p es Hin. unfold matches, Is. rewrite Hc. apply orb_true_iff. left.
    apply (@is_found (Some m) true (joinError p es) x); [|exact Hor].
    right. apply in_flat_map. exists r. split; assumption.
Qed.

Lemma wrapping_keeps_match_witness :
  (forall p msg, matches (Some (wrapError p msg wrappedErr)) (Some baseErr) = true)
  /\ (forall p es, In wrappedErr es ->
                   matches (Some (joinError p es)) (Some baseErr) = true).
Proof. apply (@wrapping_keeps_match wrappedErr baseErr); reflexivity. Defined.

(** ** The builder *)

(** X14: the builder calls overwrite what was set before and may come in
    either order: the constructor yields the handler of the last mapping
    list and the last default producer, and fails when the last default
    producer set was nil, whatever the mappings. *)
Theorem builder_then_constructor (o : Options) (m0 m : list ErrorMapping)
    (d0 : option HandlerFunc) (d : HandlerFunc) (p : addr) :
  let built := {| eh_errMap := m; eh_defaultResponse := Some d |} in
  NewErrorHandler
    (ErrorMappings (DefaultResponse (ErrorMappings (DefaultResponse o d0) m0) (Some d)) m) p
  = (Some built, None)
  /\ NewErrorHandler
       (DefaultResponse (ErrorMappings (DefaultResponse (ErrorMappings o m0) d0) m) (Some d)) p
     = (Some built, None)
  /\ fst (NewErrorHandler (ErrorMappings (DefaultResponse o None) m) p) = None
  /\ fst (NewErrorHandler (DefaultResponse (ErrorMappings o m) None) p) = None.
Proof. repeat split. Qed.

(** ** Mappings without markers *)

(** A mapped producer is called only for the first mapping that matches
    the last recorded error. *)
Lemma mapped_call_first_match (e : ErrorHandler) (next : HandlerFunc) (c : Context)
    (k : nat) (c' : Context) (err' : goerror) :
  In (CallMapped k c' err') (trace (GetMiddleware e next c)) ->
  exists em, first_match (eh_errMap e) err' k em.
Proof.
  destruct (next c) as [c1|q] eqn:Hn.
  2:{ rewrite (GetMiddleware_next_panics e next c Hn). intros []. }
  destruct (Last (Errors c1)) as [lastErr|] eqn:HL.
  2:{ rewrite (GetMiddleware_no_error e next c Hn HL). intros []. }
  destruct (extFor_cases (eh_errMap e) 0 c1 (Err lastErr))
    as [[Hno _]|(j & em & Hf & _)].
  - rewrite (GetMiddleware_no_match e next c Hn HL Hno), call_defaultResponse_eq.
    destruct (Written (Writer c1)); [intros []|].
    destruct (eh_defaultResponse e); [intros [H|[]]; discriminate H|intros []].
  - rewrite (GetMiddleware_match e next c Hn HL Hf), bind_call_toResponseFunc.
    destruct (toResponseFunc em) as [f|]; [|intros []].
    destruct (f c1 (Err lastErr)) as [c2|q]; unfold trace at 1; simpl.
    + intros [H|H]; [injection H as <- <- <-; now exists em|].
      destruct (proj2 (after_mapped_trace e c2) _ _ _ H).
    + intros [H|[]]. injection H as <- <- <-. now exists em.
Qed.

(** X15: the producer of a mapping that was built without markers is
    never called, whatever the request. *)
Theorem markerless_mapping_never_called (e : ErrorHandler) (next : HandlerFunc)
    (c : Context) (k : nat) (em : ErrorMapping) :
  nth_error (eh_errMap e) k = Some em ->
  fromErrors em = [] ->
  forall c' err', ~ In (CallMapped k c' err') (trace (GetMiddleware e next c)).
Proof.
  intros Hnth Hempty c' err' Hin.
  apply mapped_call_first_match in Hin. destruct Hin as (em' & Hnth' & Hm & _).
  assert (em' = em) as -> by congruence.
  unfold mapping_matches in Hm. rewrite Hempty in Hm. discriminate Hm.
Qed.

Lemma markerless_mapping_never_called_witness :
  fromErrors (ToResponse (Map []) (Some (respond 400 "mapped"))) = []
  /\ ~ In (CallMapped 0 (recorded [testErr]) (Some testErr))
          (trace (GetMiddleware
                    (handler_of [ ToResponse (Map []) (Some (respond 400 "mapped")) ])
                    no_handlers (recorded [testErr]))).
Proof.
  split; [reflexivity|].
  apply (@markerless_mapping_never_called
           (handler_of [ ToResponse (Map []) (Some (respond 400 "mapped")) ])
           no_handlers (recorded [testErr]) 0
           (ToResponse (Map []) (Some (respond 400 "mapped")))); reflexivity.
Defined.
